(** * The function-list declaration of the OBSMirror OpenXR API layer

    A shallow embedding of [framework/layer_apis.py], the module that tells
    the layer framework which OpenXR entry points the layer overrides, which
    ones it uses from the runtime, and which extensions it touches.

    The module is nothing but three top-level assignments of list literals.
    It is embedded twice, and the two embeddings are tied together below:
    - the three lists themselves, as [list string];
    - the module as a sequence of assignment statements, run on an empty
      namespace (a Python module's [__dict__]). *)

From stdpp Require Import gmap strings list.

Set Warnings "-register-all".

(** ** The three lists, element for element as the source has them *)

Module LayerApis.

(** The list of OpenXR functions our layer will override. *)
Definition override_functions : list string :=
  [ "xrCreateSession";
    "xrCreateSwapchain";
    "xrDestroySwapchain";
    "xrEnumerateSwapchainImages";
    "xrAcquireSwapchainImage";
    "xrReleaseSwapchainImage";
    "xrLocateViews";
    "xrBeginFrame";
    "xrEndFrame";
    "xrCreateReferenceSpace" ].

(** The list of OpenXR functions our layer will use from the runtime.
    Might repeat entries from [override_functions] above. *)
Definition requested_functions : list string :=
  [ "xrGetInstanceProperties";
    "xrGetSystemProperties";
    "xrGetSystem";
    "xrEnumerateViewConfigurationViews" ].

(** The list of OpenXR extensions our layer will either override or use. *)
Definition extensions : list string := [].

End LayerApis.

Export LayerApis.

(** ** The module as a program

    Python values, as far as this module builds them: string literals and
    list literals. *)

Inductive pyval : Type :=
  | PyStr (s : string)
  | PyList (items : list pyval).

(** A list literal whose items are all string literals. *)
Definition str_list (names : list string) : pyval := PyList (PyStr <$> names).

(** The only statement form of the module: [target = <literal>]. *)
Record stmt : Type := Assign { target : string; value : pyval }.

(** An assignment binds (or rebinds) its target in the namespace. *)
Definition exec_stmt (ns : gmap string pyval) (s : stmt) : gmap string pyval :=
  <[target s := value s]> ns.

(** Statements run top to bottom. *)
Definition exec (prog : list stmt) (ns : gmap string pyval) : gmap string pyval :=
  foldl exec_stmt ns prog.

(** [layer_apis.py], statement by statement. *)
Definition layer_apis : list stmt :=
  [ Assign "override_functions" (str_list override_functions);
    Assign "requested_functions" (str_list requested_functions);
    Assign "extensions" (str_list extensions) ].

(** The names the module's body binds, run on an empty namespace (the
    entries the interpreter adds to every module on its own, such as
    [__name__], are no part of it). *)
Definition module_namespace : gmap string pyval := exec layer_apis ∅.

(** Reading a module attribute back as a list of names; [None] when the
    attribute is missing or is not a list of strings. *)
Definition as_name (v : pyval) : option string :=
  match v with
  | PyStr s => Some s
  | PyList _ => None
  end.

Definition as_names (v : pyval) : option (list string) :=
  match v with
  | PyStr _ => None
  | PyList items => mapM as_name items
  end.

Definition attr_names (ns : gmap string pyval) (attr : string) : option (list string) :=
  ns !! attr ≫= as_names.

(** ** Membership and counting *)

(** Python's [name in lst]. *)
Definition mem (name : string) (l : list string) : bool :=
  bool_decide (name ∈ l).

(** Python's [lst.count(name)]. *)
Fixpoint occurrences (name : string) (l : list string) : nat :=
  match l with
  | [] => 0
  | x :: rest => (if decide (x = name) then 1 else 0) + occurrences name rest
  end.

Definition is_overridden (name : string) : bool := mem name override_functions.
Definition is_requested (name : string) : bool := mem name requested_functions.

(** ** The categories of entry points

    The design speaks of session, swapchain, view-location and
    frame-boundary calls.  Neither the source, which holds names only, nor
    the design says which entry point belongs to which category, so
    [category_of] goes no further than a name itself does: a name that
    spells [Swapchain] or [Session] is a call on that object,
    [xrLocateViews] is the view-location call, and [xrWaitFrame],
    [xrBeginFrame] and [xrEndFrame] are the calls of the frame loop.  Every
    other name, [xrCreateReferenceSpace] among them, is left unclassified:
    [None] says that the name does not settle the category, not that the
    call is outside the four. *)

Inductive category : Type :=
  | Session
  | Swapchain
  | ViewLocation
  | FrameBoundary.

#[global] Instance category_eq_dec : EqDecision category.
Proof. solve_decision. Defined.

(** [contains needle hay]: [needle] occurs in [hay] as a substring. *)
Fixpoint contains (needle hay : string) : bool :=
  String.prefix needle hay ||
  match hay with
  | EmptyString => false
  | String _ rest => contains needle rest
  end.

Definition category_of (name : string) : option category :=
  if contains "Swapchain" name then Some Swapchain
  else if contains "Session" name then Some Session
  else if bool_decide (name = "xrLocateViews") then Some ViewLocation
  else if bool_decide (name ∈ ["xrWaitFrame"; "xrBeginFrame"; "xrEndFrame"])
       then Some FrameBoundary
  else None.

(** ** What the layer does with an entry point

    The dispatch code that the framework generates from these lists is not
    part of the source tree; the three definitions below follow the design's
    words. *)

(** Modelled from the spec: the generated dispatch is missing.  An
    application's call is either routed to the layer's own implementation
    or forwarded to the next layer untouched. *)
Inductive handling : Type :=
  | Intercepted
  | PassedThrough.

(** Modelled from the spec: the generated dispatch table is missing.  It
    resolves the next implementation of every name in the override and
    requested-function sets. *)
Definition resolved (name : string) : bool :=
  is_overridden name || is_requested name.

(** Modelled from the spec: the generated dispatch is missing.  The layer
    overrides the names of [override_functions] and transparently forwards
    all others. *)
Definition handling_of (name : string) : handling :=
  if is_overridden name then Intercepted else PassedThrough.

(** ** The shape of the listed names

    The lists hold C identifiers of the OpenXR API: [xr], a capitalised
    verb, the object.  The predicates below read that shape off a name. *)

Definition is_upper (c : Ascii.ascii) : bool :=
  let n := Ascii.nat_of_ascii c in Nat.leb 65 n && Nat.leb n 90.

Definition is_lower (c : Ascii.ascii) : bool :=
  let n := Ascii.nat_of_ascii c in Nat.leb 97 n && Nat.leb n 122.

Definition is_letter (c : Ascii.ascii) : bool := is_upper c || is_lower c.

Fixpoint all_letters (s : string) : bool :=
  match s with
  | EmptyString => true
  | String c rest => is_letter c && all_letters rest
  end.

(** [strip_prefix p s]: what follows [p] in [s], when [s] starts with [p]. *)
Fixpoint strip_prefix (p s : string) : option string :=
  match p, s with
  | EmptyString, _ => Some s
  | String _ _, EmptyString => None
  | String a p', String b s' =>
      if decide (a = b) then strip_prefix p' s' else None
  end.

(** [xr], then an upper-case letter, then letters only. *)
Definition entry_point_name (name : string) : bool :=
  match strip_prefix "xr" name with
  | Some (String c rest) => is_upper c && all_letters rest
  | _ => false
  end.

(** The objects [X] for which [l] lists the call [verb X]: for the verb
    [xrBegin] and the list [override_functions], what the layer intercepts
    the beginning of. *)
Definition objects_of (verb : string) (l : list string) : list string :=
  omap (strip_prefix verb) l.

(** ** Proof steps for literal lists *)

(** Membership of a literal in a literal list, settled by running the
    decision procedure. *)
Ltac listed :=
  lazymatch goal with
  | |- _ ∈ _ => apply (bool_decide_unpack _); vm_compute; exact I
  end.

Ltac unlisted :=
  lazymatch goal with
  | |- _ ∉ _ => apply (bool_decide_unpack _); vm_compute; exact I
  end.

(** Case analysis on [H : name ∈ [a; b; ...]] for a variable [name]: one
    goal per element. *)
Ltac each_element H :=
  repeat (apply elem_of_cons in H as [->|H]); [..|by apply elem_of_nil in H].

(** * Properties *)

(** ** Membership and counting *)

Lemma mem_true (name : string) (l : list string) :
  mem name l = true ↔ name ∈ l.
Proof. unfold mem. by rewrite bool_decide_eq_true. Qed.

Lemma mem_false (name : string) (l : list string) :
  mem name l = false ↔ name ∉ l.
Proof. unfold mem. by rewrite bool_decide_eq_false. Qed.

Lemma occurrences_absent (name : string) (l : list string) :
  name ∉ l → occurrences name l = 0.
Proof.
  induction l as [|x rest IH]; intros Hnot; [reflexivity|].
  apply not_elem_of_cons in Hnot as [Hne Hrest]. simpl.
  destruct (decide (x = name)) as [->|_]; [by destruct Hne|].
  by rewrite IH.
Qed.

Lemma occurrences_present (name : string) (l : list string) :
  name ∈ l → 0 < occurrences name l.
Proof.
  induction 1 as [x rest|x y rest _ IH]; simpl.
  - rewrite decide_True by done. lia.
  - lia.
Qed.

(** In a list without duplicates, [count] answers 1 for every element. *)
Lemma occurrences_NoDup (name : string) (l : list string) :
  NoDup l → name ∈ l → occurrences name l = 1.
Proof.
  induction 1 as [|x rest Hx _ IH]; intros Hin.
  - by apply elem_of_nil in Hin.
  - simpl. destruct (decide (x = name)) as [->|Hne].
    + by rewrite occurrences_absent.
    + apply elem_of_cons in Hin as [->|Hin]; [done|]. by rewrite IH.
Qed.

(** And conversely: if every element is counted once, nothing repeats. *)
Lemma NoDup_occurrences (l : list string) :
  (∀ name, name ∈ l → occurrences name l = 1) → NoDup l.
Proof.
  induction l as [|x rest IH]; intros Hone; [constructor|].
  assert (Hx : x ∉ rest).
  { intros Hin. specialize (Hone x (list_elem_of_here _ _)).
    apply occurrences_present in Hin. simpl in Hone.
    rewrite decide_True in Hone by done. lia. }
  constructor; [exact Hx|].
  apply IH. intros name Hin.
  specialize (Hone name (list_elem_of_further _ _ _ Hin)). simpl in Hone.
  destruct (decide (x = name)) as [->|_]; [done|exact Hone].
Qed.

(** ** Substrings *)

Lemma append_String (a : Ascii.ascii) (s t : string) :
  String a s +:+ t = String a (s +:+ t).
Proof. reflexivity. Qed.

Lemma prefix_append (p s : string) :
  String.prefix p s = true ↔ ∃ post, s = p +:+ post.
Proof.
  revert s. induction p as [|a p IH]; intros s.
  - split; [intros _; by exists s|by destruct s].
  - setoid_rewrite append_String. destruct s as [|b s]; simpl.
    + split; [done|]. by intros [post Hpost].
    + destruct (Ascii.ascii_dec a b) as [->|Hne].
      * rewrite IH. split; intros [post Hpost]; exists post; congruence.
      * split; [done|]. intros [post Hpost]. congruence.
Qed.

Lemma contains_String (needle : string) (a : Ascii.ascii) (hay : string) :
  contains needle (String a hay) =
  String.prefix needle (String a hay) || contains needle hay.
Proof. reflexivity. Qed.

Lemma contains_spec (needle hay : string) :
  contains needle hay = true ↔ ∃ pre post, hay = pre +:+ needle +:+ post.
Proof.
  induction hay as [|a hay IH]; [unfold contains|rewrite contains_String].
  - rewrite orb_false_r, prefix_append. split.
    + intros [post Hpost]. by exists "", post.
    + intros [pre [post Hpost]]. destruct pre; [by exists post|done].
  - rewrite orb_true_iff, prefix_append, IH. split.
    + intros [[post Hpost]|[pre [post Hpost]]].
      * by exists "", post.
      * exists (String a pre), post. by rewrite append_String, Hpost.
    + intros [pre [post Hpost]]. destruct pre as [|b pre].
      * left. by exists post.
      * right. exists pre, post. rewrite append_String in Hpost. congruence.
Qed.

(** ** Categories *)

Example category_of_destroy_session :
  category_of "xrDestroySession" = Some Session.
Proof. reflexivity. Qed.

Example category_of_wait_swapchain_image :
  category_of "xrWaitSwapchainImage" = Some Swapchain.
Proof. reflexivity. Qed.

Example category_of_get_system : category_of "xrGetSystem" = None.
Proof. reflexivity. Qed.

Example category_of_create_reference_space :
  category_of "xrCreateReferenceSpace" = None.
Proof. reflexivity. Qed.

(** ** Running a module of assignments *)

(** A literal list of string literals reads back as the names it holds. *)
Lemma as_names_str_list (names : list string) :
  as_names (str_list names) = Some names.
Proof.
  unfold str_list, as_names.
  induction names as [|n names IH]; [reflexivity|].
  rewrite fmap_cons. simpl. by rewrite IH.
Qed.

Lemma attr_names_str_list (ns : gmap string pyval) (attr : string)
    (names : list string) :
  ns !! attr = Some (str_list names) → attr_names ns attr = Some names.
Proof.
  intros Hattr. unfold attr_names. rewrite Hattr. apply as_names_str_list.
Qed.

Lemma exec_app (prog1 prog2 : list stmt) (ns : gmap string pyval) :
  exec (prog1 ++ prog2) ns = exec prog2 (exec prog1 ns).
Proof. unfold exec. apply foldl_app. Qed.

(** The names a module binds are those it assigns to, on top of what the
    namespace held before. *)
Lemma exec_dom (prog : list stmt) (ns : gmap string pyval) :
  dom (exec prog ns) = dom ns ∪ list_to_set (target <$> prog).
Proof.
  revert ns. induction prog as [|s prog IH]; intros ns.
  - simpl. by rewrite union_empty_r_L.
  - unfold exec in *. rewrite fmap_cons. simpl. rewrite IH. unfold exec_stmt.
    rewrite dom_insert_L, (comm_L _ {[target s]} (dom ns)).
    by rewrite <-(assoc_L (∪)).
Qed.

(** Statements that assign to other names leave a binding alone. *)
Lemma exec_lookup_other (prog : list stmt) (ns : gmap string pyval) (attr : string) :
  attr ∉ target <$> prog → exec prog ns !! attr = ns !! attr.
Proof.
  revert ns. induction prog as [|s prog IH]; intros ns Hnot; [reflexivity|].
  rewrite fmap_cons in Hnot. apply not_elem_of_cons in Hnot as [Hne Hrest].
  unfold exec in *. simpl. rewrite IH by exact Hrest.
  unfold exec_stmt. by rewrite lookup_insert_ne.
Qed.

(** A name holds the value of the last assignment to it. *)
Lemma exec_lookup_last (before after : list stmt) (s : stmt) (ns : gmap string pyval) :
  target s ∉ target <$> after →
  exec (before ++ s :: after) ns !! target s = Some (value s).
Proof.
  intros Hnot. rewrite exec_app. change (s :: after) with ([s] ++ after).
  rewrite exec_app, exec_lookup_other by exact Hnot.
  unfold exec, exec_stmt. simpl. apply lookup_insert_eq.
Qed.

Lemma exec_lookup_assign (before after : list stmt) (attr : string) (v : pyval)
    (ns : gmap string pyval) :
  attr ∉ target <$> after →
  exec (before ++ Assign attr v :: after) ns !! attr = Some v.
Proof. apply (exec_lookup_last before after (Assign attr v)). Qed.


(** ** The concrete lists *)

Lemma override_functions_NoDup : NoDup override_functions.
Proof.
  unfold override_functions.
  repeat (apply NoDup_cons; split; [unlisted|]). apply NoDup_nil_2.
Qed.

Lemma requested_functions_NoDup : NoDup requested_functions.
Proof.
  unfold requested_functions.
  repeat (apply NoDup_cons; split; [unlisted|]). apply NoDup_nil_2.
Qed.

Lemma requested_not_overridden (name : string) :
  name ∈ requested_functions → name ∉ override_functions.
Proof. intros Hin. unfold requested_functions in Hin. each_element Hin; unlisted. Qed.

(** * The claims *)

(** C2: the declared scope has exactly 10 overridden entry points, exactly 4
    requested entry points and no extensions. *)
Theorem declared_scope_sizes :
  length override_functions = 10 ∧
  length requested_functions = 4 ∧
  extensions = [].
Proof. repeat split. Qed.

(** C3: [requested_functions] is exactly the four names
    [xrGetInstanceProperties], [xrGetSystemProperties], [xrGetSystem] and
    [xrEnumerateViewConfigurationViews], and each of the four is requested
    but not overridden. *)
Theorem requested_functions_exact :
  requested_functions =
    [ "xrGetInstanceProperties"; "xrGetSystemProperties"; "xrGetSystem";
      "xrEnumerateViewConfigurationViews" ] ∧
  Forall (λ name, name ∈ requested_functions ∧ name ∉ override_functions)
    [ "xrGetInstanceProperties"; "xrGetSystemProperties"; "xrGetSystem";
      "xrEnumerateViewConfigurationViews" ].
Proof.
  split; [reflexivity|].
  apply Forall_forall. intros name Hin.
  split; [exact Hin|]. by apply requested_not_overridden.
Qed.

(** C4: the five swapchain-lifecycle entry points [xrCreateSwapchain],
    [xrDestroySwapchain], [xrEnumerateSwapchainImages],
    [xrAcquireSwapchainImage] and [xrReleaseSwapchainImage] are members of
    [override_functions]. *)
Theorem swapchain_lifecycle_overridden :
  "xrCreateSwapchain" ∈ override_functions ∧
  "xrDestroySwapchain" ∈ override_functions ∧
  "xrEnumerateSwapchainImages" ∈ override_functions ∧
  "xrAcquireSwapchainImage" ∈ override_functions ∧
  "xrReleaseSwapchainImage" ∈ override_functions.
Proof.
  assert (Hsub : ["xrCreateSwapchain"; "xrDestroySwapchain";
                  "xrEnumerateSwapchainImages"; "xrAcquireSwapchainImage";
                  "xrReleaseSwapchainImage"] ⊆ override_functions).
  { intros name Hin. each_element Hin; listed. }
  repeat split; apply Hsub; rewrite !elem_of_cons; tauto.
Qed.

(** C5: the three Frame Mirror Pipeline entry points [xrBeginFrame],
    [xrLocateViews] and [xrEndFrame] are members of [override_functions]. *)
Theorem frame_pipeline_overridden :
  "xrBeginFrame" ∈ override_functions ∧
  "xrLocateViews" ∈ override_functions ∧
  "xrEndFrame" ∈ override_functions.
Proof.
  unfold override_functions. rewrite !elem_of_cons. tauto.
Qed.

(** C6: both [xrCreateSession] and [xrCreateReferenceSpace] are members of
    [override_functions]: they are its first and its last element. *)
Theorem session_and_space_creation_overridden :
  "xrCreateSession" ∈ override_functions ∧
  "xrCreateReferenceSpace" ∈ override_functions.
Proof.
  split.
  - apply (list_elem_of_lookup_2 _ 0). reflexivity.
  - apply (list_elem_of_lookup_2 _ 9). reflexivity.
Qed.

(** C7: there is no override for session destruction: [xrDestroySession] is
    neither in [override_functions] nor in [requested_functions]. *)
Theorem session_destruction_not_listed :
  ("xrDestroySession" ∉ override_functions) ∧
  ("xrDestroySession" ∉ requested_functions).
Proof.
  split; intros Hin.
  - unfold override_functions in Hin.
    rewrite !elem_of_cons, elem_of_nil in Hin. by destruct_or!.
  - unfold requested_functions in Hin.
    rewrite !elem_of_cons, elem_of_nil in Hin. by destruct_or!.
Qed.

(** C8: the declaration module supplies exactly the three sets
    [override_functions], [requested_functions] and [extensions], each a
    list of name strings, with [extensions] empty. *)
Theorem module_supplies_three_lists :
  dom module_namespace =
    {[ "override_functions"; "requested_functions"; "extensions" ]} ∧
  attr_names module_namespace "override_functions" = Some override_functions ∧
  attr_names module_namespace "requested_functions" = Some requested_functions ∧
  attr_names module_namespace "extensions" = Some [].
Proof.
  assert (Hover : module_namespace !! "override_functions"
                  = Some (str_list override_functions)).
  { apply (exec_lookup_assign [] [_; _]). unlisted. }
  assert (Hreq : module_namespace !! "requested_functions"
                 = Some (str_list requested_functions)).
  { apply (exec_lookup_assign [_] [_]). unlisted. }
  assert (Hext : module_namespace !! "extensions" = Some (str_list extensions)).
  { apply (exec_lookup_assign [_; _] []). apply not_elem_of_nil. }
  split; [|by auto using attr_names_str_list].
  unfold module_namespace. rewrite exec_dom, dom_empty_L, union_empty_l_L. simpl.
  by rewrite union_empty_r_L, (assoc_L (∪)).
Qed.

(** C9: every name of [override_functions] appears exactly once in it, every
    name of [requested_functions] appears exactly once in it, and no name
    appears in both lists. *)
Theorem names_unique_and_lists_disjoint (name : string) :
  (name ∈ override_functions → occurrences name override_functions = 1) ∧
  (name ∈ requested_functions → occurrences name requested_functions = 1) ∧
  ¬ (name ∈ override_functions ∧ name ∈ requested_functions).
Proof.
  split; [|split].
  - apply occurrences_NoDup, override_functions_NoDup.
  - apply occurrences_NoDup, requested_functions_NoDup.
  - intros [Hover Hreq]. by apply (requested_not_overridden name).
Qed.

Lemma names_unique_and_lists_disjoint_witness :
  "xrLocateViews" ∈ override_functions ∧
  occurrences "xrLocateViews" override_functions = 1 ∧
  "xrGetSystem" ∈ requested_functions ∧
  occurrences "xrGetSystem" requested_functions = 1.
Proof.
  assert (Hover : "xrLocateViews" ∈ override_functions) by listed.
  assert (Hreq : "xrGetSystem" ∈ requested_functions) by listed.
  split; [exact Hover|]. split; [|split; [exact Hreq|]].
  - exact (proj1 (names_unique_and_lists_disjoint "xrLocateViews") Hover).
  - exact (proj1 (proj2 (names_unique_and_lists_disjoint "xrGetSystem")) Hreq).
Defined.

(** C10: the frame-boundary entry point [xrWaitFrame] is in neither
    [override_functions] nor [requested_functions]: the layer neither
    intercepts nor resolves it, and calls to it pass straight through. *)
Theorem wait_frame_not_listed :
  category_of "xrWaitFrame" = Some FrameBoundary ∧
  ("xrWaitFrame" ∉ override_functions) ∧
  ("xrWaitFrame" ∉ requested_functions) ∧
  resolved "xrWaitFrame" = false ∧
  handling_of "xrWaitFrame" = PassedThrough.
Proof.
  assert (Hover : is_overridden "xrWaitFrame" = false) by reflexivity.
  assert (Hreq : is_requested "xrWaitFrame" = false) by reflexivity.
  split; [reflexivity|]. split; [by apply mem_false|]. split; [by apply mem_false|].
  unfold resolved, handling_of. rewrite Hover, Hreq. by split.
Qed.

(** * Further properties of the declared lists *)

(** ** Names by verb *)

Lemma strip_prefix_Some (p s t : string) :
  strip_prefix p s = Some t ↔ s = p +:+ t.
Proof.
  revert s. induction p as [|a p IH]; intros s.
  - change ("" +:+ t) with t. destruct s; simpl; split; congruence.
  - rewrite append_String. destruct s as [|b s]; simpl; [done|].
    destruct (decide (a = b)) as [->|Hne].
    + rewrite IH. split; congruence.
    + split; [done|]. congruence.
Qed.

(** [verb X] is listed exactly when [X] is one of the verb's objects. *)
Lemma elem_of_objects_of (verb object : string) (l : list string) :
  verb +:+ object ∈ l ↔ object ∈ objects_of verb l.
Proof.
  unfold objects_of. rewrite list_elem_of_omap. split.
  - intros Hin. exists (verb +:+ object). split; [exact Hin|].
    by apply strip_prefix_Some.
  - intros [name [Hin Hstrip]]. apply strip_prefix_Some in Hstrip. by subst.
Qed.

Lemma not_elem_of_objects_of (verb object : string) (l : list string) :
  objects_of verb l = [] → verb +:+ object ∉ l.
Proof.
  intros Hnone. rewrite elem_of_objects_of, Hnone. apply not_elem_of_nil.
Qed.

Example objects_of_create :
  objects_of "xrCreate" override_functions =
    ["Session"; "Swapchain"; "ReferenceSpace"].
Proof. reflexivity. Qed.

(** ** The shape of a name *)

Example entry_point_name_needs_prefix : entry_point_name "CreateSession" = false.
Proof. reflexivity. Qed.

Example entry_point_name_needs_capital : entry_point_name "xrcreateSession" = false.
Proof. reflexivity. Qed.

Example entry_point_name_letters_only : entry_point_name "xrCreate_Session" = false.
Proof. reflexivity. Qed.

Example entry_point_name_needs_verb : entry_point_name "xr" = false.
Proof. reflexivity. Qed.

(** X1: every name of [override_functions] and of [requested_functions]
    has the shape of an OpenXR entry point: [xr], an upper-case letter, and
    letters only after it. *)
Theorem listed_names_well_formed :
  Forall (λ name, entry_point_name name = true)
    (override_functions ++ requested_functions).
Proof.
  apply Forall_app. split.
  - unfold override_functions. repeat (apply Forall_cons; split; [reflexivity|]).
    apply Forall_nil_2.
  - apply Forall_forall. intros name Hin. unfold requested_functions in Hin.
    each_element Hin; reflexivity.
Qed.

(** X2: the only destroy call in either list is [xrDestroySwapchain]: a
    name [xrDestroy...] is overridden exactly when it is
    [xrDestroySwapchain], and none is requested. *)
Theorem only_swapchain_destruction_listed (object : string) :
  ("xrDestroy" +:+ object ∈ override_functions ↔ object = "Swapchain") ∧
  ("xrDestroy" +:+ object ∉ requested_functions).
Proof.
  split.
  - rewrite elem_of_objects_of.
    change (objects_of "xrDestroy" override_functions) with ["Swapchain"].
    apply list_elem_of_singleton.
  - by apply not_elem_of_objects_of.
Qed.

(** X3: no wait call is in either list: whatever follows [xrWait], the name
    is neither overridden nor requested. *)
Theorem no_wait_call_listed (object : string) :
  ("xrWait" +:+ object ∉ override_functions) ∧
  ("xrWait" +:+ object ∉ requested_functions).
Proof. split; by apply not_elem_of_objects_of. Qed.

(** X4: every requested function is a query by its name: it starts with
    [xrGet] or with [xrEnumerate]. *)
Theorem requested_functions_are_queries (name : string) :
  name ∈ requested_functions →
  ∃ rest, name = "xrGet" +:+ rest ∨ name = "xrEnumerate" +:+ rest.
Proof.
  intros Hin. unfold requested_functions in Hin. each_element Hin.
  - exists "InstanceProperties". by left.
  - exists "SystemProperties". by left.
  - exists "System". by left.
  - exists "ViewConfigurationViews". by right.
Qed.

Lemma requested_functions_are_queries_witness :
  "xrEnumerateViewConfigurationViews" ∈ requested_functions ∧
  ∃ rest, "xrEnumerateViewConfigurationViews" = "xrGet" +:+ rest ∨
          "xrEnumerateViewConfigurationViews" = "xrEnumerate" +:+ rest.
Proof.
  assert (Hin : "xrEnumerateViewConfigurationViews" ∈ requested_functions)
    by listed.
  split; [exact Hin|].
  exact (requested_functions_are_queries _ Hin).
Defined.

(** X5: brackets are overridden at both ends or not at all: [xrBegin X] is
    in [override_functions] exactly when [xrEnd X] is, and [xrAcquire X]
    exactly when [xrRelease X] is. *)
Theorem brackets_overridden_at_both_ends (object : string) :
  ("xrBegin" +:+ object ∈ override_functions ↔
   "xrEnd" +:+ object ∈ override_functions) ∧
  ("xrAcquire" +:+ object ∈ override_functions ↔
   "xrRelease" +:+ object ∈ override_functions).
Proof.
  rewrite !elem_of_objects_of.
  assert (Hframe : objects_of "xrBegin" override_functions
                   = objects_of "xrEnd" override_functions) by reflexivity.
  assert (Himage : objects_of "xrAcquire" override_functions
                   = objects_of "xrRelease" override_functions) by reflexivity.
  by rewrite Hframe, Himage.
Qed.
